(** * The Emscripten wrapper around the OPL3 emulator (main.c)

    main.c owns two objects with static storage, [sample_buf] and [chip], and
    exports four entry points.  Three of them make one call into the emulator
    (opl3.h, not part of the wrapper) and return nothing; the fourth returns the
    address of [sample_buf].

    The wrapper is embedded as small programs over external calls.  The
    emulator is an interface ([opl3_api]): every statement about the wrapper
    is proved for all of its implementations.  The emulator core that the
    specification describes is a separate module ([Core]) and is plugged into
    the interface by [core_api]. *)

From stdpp Require Import base option list gmap.
From Stdlib Require Import ZArith Lia.

Local Open Scope Z_scope.

(** ** Fixed-width integers of the C types in main.c *)

Definition to_uint8 (z : Z) : Z := z mod 2 ^ 8.
Definition to_uint16 (z : Z) : Z := z mod 2 ^ 16.
Definition to_uint32 (z : Z) : Z := z mod 2 ^ 32.
(** conversion to [int16_t]: two's complement wrap-around *)
Definition to_int16 (z : Z) : Z := (z + 2 ^ 15) mod 2 ^ 16 - 2 ^ 15.

Definition is_uint8 (z : Z) : Prop := 0 <= z < 2 ^ 8.
Definition is_uint16 (z : Z) : Prop := 0 <= z < 2 ^ 16.
Definition is_uint32 (z : Z) : Prop := 0 <= z < 2 ^ 32.
Definition is_int16 (z : Z) : Prop := - 2 ^ 15 <= z < 2 ^ 15.

(** ** Objects and pointers

    [int16_t sample_buf[4]; opl3_chip chip;] are the only objects of the
    translation unit.  A pointer names an object and an element index in it. *)

Inductive global : Set := g_sample_buf | g_chip.

Record pointer : Set := Ptr { p_obj : global; p_index : Z }.

#[global] Instance global_eq_dec : EqDecision global.
Proof. solve_decision. Defined.
#[global] Instance pointer_eq_dec : EqDecision pointer.
Proof. solve_decision. Defined.

(** [&chip] *)
Definition addr_chip : pointer := Ptr g_chip 0.
(** [&sample_buf[i]]; the array name itself decays to [addr_sample_buf 0] *)
Definition addr_sample_buf (i : Z) : pointer := Ptr g_sample_buf i.

(** [p + i] *)
Definition ptr_add (p : pointer) (i : Z) : pointer :=
  Ptr (p_obj p) (p_index p + i).

(** The contents of an [int16_t[4]]. *)
Record frame4 : Set := Frame4 { s0 : Z; s1 : Z; s2 : Z; s3 : Z }.

Definition frame_zero : frame4 := Frame4 0 0 0 0.

Definition frame_get (f : frame4) (i : Z) : option Z :=
  if decide (i = 0) then Some (s0 f)
  else if decide (i = 1) then Some (s1 f)
  else if decide (i = 2) then Some (s2 f)
  else if decide (i = 3) then Some (s3 f)
  else None.

(** what an [int16_t[4]] holds after the four values were stored into it *)
Definition frame_to_int16 (f : frame4) : frame4 :=
  Frame4 (to_int16 (s0 f)) (to_int16 (s1 f)) (to_int16 (s2 f)) (to_int16 (s3 f)).

Definition frame_int16 (f : frame4) : Prop :=
  is_int16 (s0 f) /\ is_int16 (s1 f) /\ is_int16 (s2 f) /\ is_int16 (s3 f).

(** ** The emulator interface used by main.c

    opl3.h is not part of the wrapper.  main.c uses one type and three
    functions of it; each function receives the chip by pointer and its
    result, if it has one, is dropped by the calling statement.  A call that
    does not return (it loops or traps) is [None]. *)

Record opl3_api : Type := Opl3Api {
  opl3_chip : Type;
  (** the value of an object with static storage before any call: all zero *)
  chip_zero : opl3_chip;
  OPL3_Reset : opl3_chip -> Z -> option opl3_chip;
  OPL3_WriteRegBuffered : opl3_chip -> Z -> Z -> option opl3_chip;
  (** receives the buffer by pointer: it may read the four samples that are
      there and stores four samples *)
  OPL3_Generate4ChResampled : opl3_chip -> frame4 -> option (opl3_chip * frame4)
}.

(** ** Program state: the two globals of main.c *)

Record memory (A : opl3_api) : Type := Memory {
  chip : opl3_chip A;
  sample_buf : frame4
}.
Arguments Memory {A} _ _.
Arguments chip {A} _.
Arguments sample_buf {A} _.

(** static storage is zero-initialised *)
Definition initial_memory (A : opl3_api) : memory A :=
  Memory (chip_zero A) frame_zero.

(** reading an [int16_t] through a pointer; the chip is opaque to the host *)
Definition load_int16 {A} (m : memory A) (p : pointer) : option Z :=
  match p_obj p with
  | g_sample_buf => frame_get (sample_buf m) (p_index p)
  | g_chip => None
  end.

(** ** Entry points as programs over emulator calls *)

Inductive retval : Set :=
| RVoid
| RPtr (p : pointer).

Inductive ext_call : Set :=
| X_Reset (chip_ptr : pointer) (samplerate : Z)
| X_WriteRegBuffered (chip_ptr : pointer) (reg v : Z)
| X_Generate4ChResampled (chip_ptr : pointer) (buf4 : pointer).

Inductive prog : Set :=
| Ret (v : retval)
| Call (c : ext_call) (k : prog).

(** [void opl3_reset(uint32_t samplerate) { OPL3_Reset(&chip, samplerate); }] *)
Definition opl3_reset (samplerate : Z) : prog :=
  Call (X_Reset addr_chip (to_uint32 samplerate)) (Ret RVoid).

(** [void opl3_write(uint16_t reg, uint8_t data)
     { OPL3_WriteRegBuffered(&chip, reg, data); }] *)
Definition opl3_write (reg data : Z) : prog :=
  Call (X_WriteRegBuffered addr_chip (to_uint16 reg) (to_uint8 data)) (Ret RVoid).

(** [void opl3_render() { OPL3_Generate4ChResampled(&chip, &sample_buf[0]); }] *)
Definition opl3_render : prog :=
  Call (X_Generate4ChResampled addr_chip (addr_sample_buf 0)) (Ret RVoid).

(** [int16_t *opl3_buf_ptr() { return sample_buf; }] *)
Definition opl3_buf_ptr : prog :=
  Ret (RPtr (addr_sample_buf 0)).

(** the emulator calls a program makes, in order *)
Fixpoint ext_calls (p : prog) : list ext_call :=
  match p with
  | Ret _ => []
  | Call c k => c :: ext_calls k
  end.

Definition chip_arg (c : ext_call) : pointer :=
  match c with
  | X_Reset p _ => p
  | X_WriteRegBuffered p _ _ => p
  | X_Generate4ChResampled p _ => p
  end.

(** ** Running a program against an emulator *)

Section Exec.
Context (A : opl3_api).

(** One emulator call.  The chip pointer has to be [&chip]; the sample
    pointer has to leave room for four [int16_t], so it is [&sample_buf[0]].
    Anything else is outside the objects of the program. *)
Definition handle (c : ext_call) (m : memory A) : option (memory A) :=
  match c with
  | X_Reset p r =>
      if decide (p = addr_chip) then
        c' ← OPL3_Reset A (chip m) r; Some (Memory c' (sample_buf m))
      else None
  | X_WriteRegBuffered p reg v =>
      if decide (p = addr_chip) then
        c' ← OPL3_WriteRegBuffered A (chip m) reg v; Some (Memory c' (sample_buf m))
      else None
  | X_Generate4ChResampled p b =>
      if decide (p = addr_chip ∧ b = addr_sample_buf 0) then
        '(c', f) ← OPL3_Generate4ChResampled A (chip m) (sample_buf m);
        Some (Memory c' (frame_to_int16 f))
      else None
  end.

Fixpoint exec (p : prog) (m : memory A) : option (retval * memory A) :=
  match p with
  | Ret v => Some (v, m)
  | Call c k => m' ← handle c m; exec k m'
  end.
End Exec.

(** ** The host's view: a sequence of entry-point calls *)

Inductive call : Set :=
| CReset (samplerate : Z)
| CWrite (reg data : Z)
| CRender
| CBufPtr.

Definition body (c : call) : prog :=
  match c with
  | CReset r => opl3_reset r
  | CWrite reg data => opl3_write reg data
  | CRender => opl3_render
  | CBufPtr => opl3_buf_ptr
  end.

(** What the host can see after a call: the returned value and, through the
    pointer of [opl3_buf_ptr], the four samples. *)
Record event : Set := Event { ev_ret : retval; ev_samples : frame4 }.

Section Run.
Context (A : opl3_api).

Fixpoint run (cs : list call) (m : memory A) : option (list event * memory A) :=
  match cs with
  | [] => Some ([], m)
  | c :: cs' =>
      '(v, m') ← exec A (body c) m;
      '(evs, m'') ← run cs' m';
      Some (Event v (sample_buf m') :: evs, m'')
  end.

(** the same as a relation, one rule per entry point *)
Inductive step : memory A -> call -> event -> memory A -> Prop :=
| step_reset m r c' :
    OPL3_Reset A (chip m) (to_uint32 r) = Some c' ->
    step m (CReset r) (Event RVoid (sample_buf m)) (Memory c' (sample_buf m))
| step_write m reg data c' :
    OPL3_WriteRegBuffered A (chip m) (to_uint16 reg) (to_uint8 data) = Some c' ->
    step m (CWrite reg data) (Event RVoid (sample_buf m)) (Memory c' (sample_buf m))
| step_render m c' f :
    OPL3_Generate4ChResampled A (chip m) (sample_buf m) = Some (c', f) ->
    step m CRender (Event RVoid (frame_to_int16 f)) (Memory c' (frame_to_int16 f))
| step_buf_ptr m :
    step m CBufPtr (Event (RPtr (addr_sample_buf 0)) (sample_buf m)) m.

Inductive steps : memory A -> list call -> list event -> memory A -> Prop :=
| steps_nil m : steps m [] [] m
| steps_cons m c ev m' cs evs m'' :
    step m c ev m' -> steps m' cs evs m'' -> steps m (c :: cs) (ev :: evs) m''.

(** the frames the host reads, one after each render *)
Fixpoint rendered (cs : list call) (evs : list event) : list frame4 :=
  match cs, evs with
  | CRender :: cs', ev :: evs' => ev_samples ev :: rendered cs' evs'
  | _ :: cs', _ :: evs' => rendered cs' evs'
  | _, _ => []
  end.
End Run.

(** A call hands something back to its caller when it returns and the value
    is not [void].  main.c has no other channel to the caller: no status
    variable, no callback, and the chip is opaque. *)
Definition hands_back {A} (o : option (retval * memory A)) : Prop :=
  exists v m, o = Some (v, m) /\ v <> RVoid.

(** ** The emulator core of the specification *)

(** Modelled from the spec: the emulator behind opl3.h ([OPL3_Reset],
    [OPL3_WriteRegBuffered], [OPL3_Generate4ChResampled] and [opl3_chip]) is
    missing from the sources.  This module follows the specification's data
    model (section 3), component contracts (section 4), interface (section 6)
    and error rules (section 7).  What the specification defers to the
    hardware's reference tables (the register map, the waveforms, the rate
    tables, the algorithm topologies, the output filter) is the record
    [tables]. *)

Module Core.

(** "stage (attack/decay/sustain/release/off)" *)
Inductive stage : Set := Attack | Decay | Sustain | Release | Off.

#[global] Instance stage_eq_dec : EqDecision stage.
Proof. solve_decision. Defined.

(** "Envelope State: stage, current attenuation, rate counter" *)
Record envelope : Set := Envelope {
  env_stage : stage;
  env_atten : Z;
  env_counter : Z
}.

(** the operator parameters a register write can set *)
Inductive op_field : Set :=
| Multiplier | Detune | Waveform
| AttackRate | DecayRate | SustainLevel | ReleaseRate.

(** "Operator: phase accumulator, phase increment (derived from frequency
    number, block, multiplier, and detune), envelope state, waveform selector,
    key-on/off flag"; the increment is derived when the operator is ticked. *)
Record operator : Set := Operator {
  op_phase : Z;
  op_env : envelope;
  op_key_on : bool;
  op_mult : Z;
  op_detune : Z;
  op_wave : Z;
  op_attack : Z;
  op_decay : Z;
  op_sustain : Z;
  op_release : Z
}.

Inductive ch_field : Set :=
| Fnum | Block | Algorithm | FourOp | Feedback | Routing.

(** "Channel: algorithm selector, feedback amount, output routing, frequency
    number + octave shared by its operators"; [ch_last] is the channel's
    previous output, which the feedback path reads. *)
Record channel : Set := Channel {
  ch_fnum : Z;
  ch_block : Z;
  ch_algorithm : Z;
  ch_four_op : Z;
  ch_feedback : Z;
  ch_routing : Z;
  ch_last : Z
}.

(** what a mapped register address updates; for [T_key] a non-zero byte is
    key-on and zero is key-off *)
Inductive target : Set :=
| T_op (i : nat) (f : op_field)
| T_ch (j : nat) (f : ch_field)
| T_key (i : nat).

(** Modelled from the spec: the reference tables of the missing emulator,
    which the specification names and does not list. *)
Record tables : Type := Tables {
  (** "all entities are fixed-size, pre-allocated at chip construction" *)
  num_operators : nat;
  num_channels : nat;
  (** the channel an operator belongs to, and the operators of a channel in
      evaluation order (the first one receives the feedback); the second
      depends on the channel's 2-op/4-op mode *)
  channel_of : nat -> nat;
  slots_of : bool -> nat -> list nat;
  (** the hardware register map: address to parameter *)
  reg_map : Z -> option target;
  waveform : Z -> Z -> Z;
  phase_increment : Z -> Z -> Z -> Z -> Z;
  (** rate tables with key scaling: stage, rate register, frequency number,
      block, rate counter give the attenuation step *)
  env_step : stage -> Z -> Z -> Z -> Z -> Z;
  max_atten : Z;
  (** algorithm topology: in mode [four], algorithm [a], does slot [k']
      modulate slot [k], and is slot [k] a carrier *)
  modulates : bool -> Z -> nat -> nat -> bool;
  carrier : bool -> Z -> nat -> bool;
  feedback_scale : Z -> Z -> Z;
  (** the fixed output filter for a sample rate: weights over the most recent
      raw samples, and their common divisor *)
  taps : Z -> list Z;
  tap_scale : Z -> Z
}.

(** Modelled from the spec: the missing [opl3_chip].  "Global chip state
    (register file + operator array) should be modeled as a single owned
    aggregate value per chip instance"; the sample rate is [None] until a
    reset has set it.  [raw] holds the most recent raw bus sums, newest
    first, for the output filter. *)
Record chip : Type := Chip {
  sample_rate : option Z;
  registers : gmap Z Z;
  operators : list operator;
  channels : list channel;
  raw : list frame4
}.

Inductive error : Set := Invalid_sample_rate | Not_reset.

Inductive result (X : Type) : Type :=
| Ok (x : X)
| Err (e : error).
Arguments Ok {X} _.
Arguments Err {X} _.

Section WithTables.
Context (T : tables).

(** *** Power-on state and reset *)

Definition op_default : operator :=
  Operator 0 (Envelope Off (max_atten T) 0) false 0 0 0 0 0 0 0.

Definition ch_default : channel := Channel 0 0 0 0 0 0 0.

Definition power_on (rate : option Z) : chip :=
  Chip rate ∅ (replicate (num_operators T) op_default)
       (replicate (num_channels T) ch_default) [].

(** the chip before any reset: constructed, no sample rate *)
Definition unconfigured : chip := power_on None.

(** Modelled from the spec: the reset behind the missing [OPL3_Reset].
    "reset(sample_rate: integer>0): (re)initializes chip to power-on defaults
    at the given output sample rate"; "an invalid (zero or negative) sample
    rate passed to reset" is an error and "failed calls leave prior state
    unchanged" *)
Definition reset (rate : Z) (c : chip) : result chip :=
  if decide (0 < rate) then Ok (power_on (Some rate)) else Err Invalid_sample_rate.

(** *** Register writes *)

(** "address (0-0x1FF range across two banks)"; "unmapped addresses are
    ignored" *)
Definition lookup_reg (address : Z) : option target :=
  if decide (0 <= address <= 511) then reg_map T address else None.

Definition set_op_field (f : op_field) (v : Z) (o : operator) : operator :=
  match f with
  | Multiplier => Operator (op_phase o) (op_env o) (op_key_on o) v (op_detune o)
                    (op_wave o) (op_attack o) (op_decay o) (op_sustain o) (op_release o)
  | Detune => Operator (op_phase o) (op_env o) (op_key_on o) (op_mult o) v
                    (op_wave o) (op_attack o) (op_decay o) (op_sustain o) (op_release o)
  | Waveform => Operator (op_phase o) (op_env o) (op_key_on o) (op_mult o) (op_detune o)
                    v (op_attack o) (op_decay o) (op_sustain o) (op_release o)
  | AttackRate => Operator (op_phase o) (op_env o) (op_key_on o) (op_mult o) (op_detune o)
                    (op_wave o) v (op_decay o) (op_sustain o) (op_release o)
  | DecayRate => Operator (op_phase o) (op_env o) (op_key_on o) (op_mult o) (op_detune o)
                    (op_wave o) (op_attack o) v (op_sustain o) (op_release o)
  | SustainLevel => Operator (op_phase o) (op_env o) (op_key_on o) (op_mult o) (op_detune o)
                    (op_wave o) (op_attack o) (op_decay o) v (op_release o)
  | ReleaseRate => Operator (op_phase o) (op_env o) (op_key_on o) (op_mult o) (op_detune o)
                    (op_wave o) (op_attack o) (op_decay o) (op_sustain o) v
  end.

Definition set_ch_field (f : ch_field) (v : Z) (c : channel) : channel :=
  match f with
  | Fnum => Channel v (ch_block c) (ch_algorithm c) (ch_four_op c)
              (ch_feedback c) (ch_routing c) (ch_last c)
  | Block => Channel (ch_fnum c) v (ch_algorithm c) (ch_four_op c)
              (ch_feedback c) (ch_routing c) (ch_last c)
  | Algorithm => Channel (ch_fnum c) (ch_block c) v (ch_four_op c)
              (ch_feedback c) (ch_routing c) (ch_last c)
  | FourOp => Channel (ch_fnum c) (ch_block c) (ch_algorithm c) v
              (ch_feedback c) (ch_routing c) (ch_last c)
  | Feedback => Channel (ch_fnum c) (ch_block c) (ch_algorithm c) (ch_four_op c)
              v (ch_routing c) (ch_last c)
  | Routing => Channel (ch_fnum c) (ch_block c) (ch_algorithm c) (ch_four_op c)
              (ch_feedback c) v (ch_last c)
  end.

Definition with_env (e : envelope) (phase : Z) (key : bool) (o : operator) : operator :=
  Operator phase e key (op_mult o) (op_detune o) (op_wave o)
           (op_attack o) (op_decay o) (op_sustain o) (op_release o).

(** "Key-on transitions the envelope to attack and resets phase per
    configuration; key-off transitions to release."  Both are events: a write
    that repeats the current key state is no transition. *)
Definition key_event (on : bool) (o : operator) : operator :=
  match on, op_key_on o with
  | true, false =>
      with_env (Envelope Attack (env_atten (op_env o)) 0) 0 true o
  | false, true =>
      with_env (Envelope Release (env_atten (op_env o)) 0) (op_phase o) false o
  | _, _ => o
  end.

Definition with_operators (ops : list operator) (c : chip) : chip :=
  Chip (sample_rate c) (registers c) ops (channels c) (raw c).
Definition with_channels (chs : list channel) (c : chip) : chip :=
  Chip (sample_rate c) (registers c) (operators c) chs (raw c).
Definition with_registers (r : gmap Z Z) (c : chip) : chip :=
  Chip (sample_rate c) r (operators c) (channels c) (raw c).

Definition apply_target (t : target) (v : Z) (c : chip) : chip :=
  match t with
  | T_op i f => with_operators (alter (set_op_field f v) i (operators c)) c
  | T_ch j f => with_channels (alter (set_ch_field f v) j (channels c)) c
  | T_key i => with_operators (alter (key_event (negb (v =? 0))) i (operators c)) c
  end.

(** Modelled from the spec: the register write behind the missing
    [OPL3_WriteRegBuffered].  "write(address, value) stores the byte and, if
    the address maps to a known parameter, immediately updates the
    corresponding Operator or Channel field.  Unknown addresses are silently
    ignored (no error)." *)
Definition write_register (address value : Z) (c : chip) : chip :=
  match lookup_reg address with
  | None => c
  | Some t => apply_target t value (with_registers (<[address := value]> (registers c)) c)
  end.

(** *** Envelope generator *)

(** "Attack -> Decay -> Sustain -> Release -> Off ... decay ends when
    attenuation reaches the configured sustain level; release ends when
    attenuation reaches maximum attenuation, entering Off."  Attack ends when
    no attenuation is left.  The step comes from the rate tables. *)
Definition env_tick (ch : channel) (o : operator) : envelope :=
  let e := op_env o in
  let st := fun rate =>
    env_step T (env_stage e) rate (ch_fnum ch) (ch_block ch) (env_counter e) in
  let n := env_counter e + 1 in
  match env_stage e with
  | Attack =>
      let a := env_atten e - st (op_attack o) in
      if decide (a <= 0) then Envelope Decay 0 n else Envelope Attack a n
  | Decay =>
      let a := env_atten e + st (op_decay o) in
      if decide (op_sustain o <= a) then Envelope Sustain (op_sustain o) n
      else Envelope Decay a n
  | Sustain => Envelope Sustain (env_atten e) n
  | Release =>
      let a := env_atten e + st (op_release o) in
      if decide (max_atten T <= a) then Envelope Off (max_atten T) n
      else Envelope Release a n
  | Off => e
  end.

(** *** Operator bank *)

Definition active (o : operator) : bool :=
  match env_stage (op_env o) with Off => false | _ => true end.

(** "ticks every active operator's phase and envelope" *)
Definition tick_operator (ch : channel) (o : operator) : operator :=
  if active o then
    with_env (env_tick ch o)
      (op_phase o + phase_increment T (ch_fnum ch) (ch_block ch) (op_mult o) (op_detune o))
      (op_key_on o) o
  else o.

Definition channel_at (chs : list channel) (j : nat) : channel :=
  default ch_default (chs !! j).

Definition tick_all (chs : list channel) (ops : list operator) : list operator :=
  imap (fun i o => tick_operator (channel_at chs (channel_of T i)) o) ops.

(** "Output per tick: waveform(phase) * envelope_attenuation", the phase
    shifted by the modulating input; an operator that is off puts out
    nothing. *)
Definition op_output (o : operator) (modulation : Z) : Z :=
  if active o then
    waveform T (op_wave o) (op_phase o + modulation) * env_atten (op_env o)
  else 0.

(** *** Channel mixer *)

Definition Zsum (l : list Z) : Z := foldr Z.add 0 l.

Definition pick (sel : nat -> bool) (l : list Z) : list Z :=
  imap (fun k x => if sel k then x else 0) l.

(** the outputs of a channel's slots, in evaluation order; [done] holds the
    slots already evaluated *)
Fixpoint slot_outputs (ops : list operator) (four : bool) (alg fb : Z)
    (slots : list nat) (done : list Z) : list Z :=
  match slots with
  | [] => done
  | i :: rest =>
      let k := length done in
      let md := (if decide (k = 0%nat) then fb else 0)
                + Zsum (pick (fun k' => modulates T four alg k' k) done) in
      let out := from_option (fun o => op_output o md) 0 (ops !! i) in
      slot_outputs ops four alg fb rest (done ++ [out])
  end.

(** "reads the algorithm selector to decide which operators modulate which,
    applies feedback (a channel's own prior output scaled and fed back into
    its first operator's phase), and sums carrier operator outputs into the
    channel's contribution" *)
Definition channel_output (ops : list operator) (j : nat) (ch : channel) : Z :=
  let four := negb (ch_four_op ch =? 0) in
  let fb := feedback_scale T (ch_feedback ch) (ch_last ch) in
  Zsum (pick (carrier T four (ch_algorithm ch))
          (slot_outputs ops four (ch_algorithm ch) fb (slots_of T four j) [])).

(** "Output routed to left/right/auxiliary buses per channel panning flags":
    bit [b] of the routing byte enables bus [b]. *)
Definition route (ch : channel) (x : Z) : frame4 :=
  Frame4 (if Z.testbit (ch_routing ch) 0 then x else 0)
         (if Z.testbit (ch_routing ch) 1 then x else 0)
         (if Z.testbit (ch_routing ch) 2 then x else 0)
         (if Z.testbit (ch_routing ch) 3 then x else 0).

Definition frame_add (f g : frame4) : frame4 :=
  Frame4 (s0 f + s0 g) (s1 f + s1 g) (s2 f + s2 g) (s3 f + s3 g).

Definition set_last (ch : channel) (x : Z) : channel :=
  Channel (ch_fnum ch) (ch_block ch) (ch_algorithm ch) (ch_four_op ch)
          (ch_feedback ch) (ch_routing ch) x.

Definition mix (ops : list operator) (chs : list channel) : frame4 :=
  foldr frame_add frame_zero (imap (fun j ch => route ch (channel_output ops j ch)) chs).

(** *** Output stage *)

Fixpoint dot (ws xs : list Z) : Z :=
  match ws, xs with
  | w :: ws', x :: xs' => w * x + dot ws' xs'
  | _, _ => 0
  end.

Definition clamp16 (z : Z) : Z := Z.max (- 2 ^ 15) (Z.min (2 ^ 15 - 1) z).

(** "resamples the raw ticks to the caller-requested sample rate using a
    fixed interpolation/decimation filter" *)
Definition filter (rate : Z) (recent : list frame4) : frame4 :=
  let out := fun (sel : frame4 -> Z) =>
    clamp16 (dot (taps T rate) (sel <$> recent) / tap_scale T rate) in
  Frame4 (out s0) (out s1) (out s2) (out s3).

(** Modelled from the spec: the generator behind the missing
    [OPL3_Generate4ChResampled].  "render_one_frame(): advances the chip by
    one output sample and returns the mixed frame"; it "fails only if called
    before reset() establishes a valid sample rate" *)
Definition render_one_frame (c : chip) : result (chip * frame4) :=
  match sample_rate c with
  | None => Err Not_reset
  | Some rate =>
      let ops := tick_all (channels c) (operators c) in
      let chs := imap (fun j ch => set_last ch (channel_output ops j ch)) (channels c) in
      let recent := take (length (taps T rate)) (mix ops (channels c) :: raw c) in
      Ok (Chip (Some rate) (registers c) ops chs recent, filter rate recent)
  end.

End WithTables.

(** A small instance of the tables, enough to run the model: one channel of
    two operators, a handful of mapped registers, a square wave, a two-tap
    averaging filter. *)
Definition demo_reg_map (address : Z) : option target :=
  if decide (address = 0x20) then Some (T_op 0 Multiplier)
  else if decide (address = 0x23) then Some (T_op 1 Multiplier)
  else if decide (address = 0x60) then Some (T_op 0 AttackRate)
  else if decide (address = 0x63) then Some (T_op 1 AttackRate)
  else if decide (address = 0xA0) then Some (T_ch 0 Fnum)
  else if decide (address = 0xB0) then Some (T_key 1)
  else if decide (address = 0xC0) then Some (T_ch 0 Routing)
  else None.

Definition demo_tables : tables := {|
  num_operators := 2;
  num_channels := 1;
  channel_of := fun _ => 0%nat;
  slots_of := fun _ _ => [0%nat; 1%nat];
  reg_map := demo_reg_map;
  waveform := fun _ p => if decide (p mod 1024 < 512) then 1 else -1;
  phase_increment := fun fnum block mult _ => fnum * 2 ^ block * (1 + mult);
  env_step := fun _ rate _ _ _ => 1 + rate;
  max_atten := 511;
  modulates := fun _ alg k' k => (alg =? 0) && (k' =? 0)%nat && (k =? 1)%nat;
  carrier := fun _ alg k => (k =? 1)%nat || negb (alg =? 0);
  feedback_scale := fun fb last => if fb =? 0 then 0 else last / 2 ^ (9 - fb);
  taps := fun _ => [1; 1];
  tap_scale := fun _ => 2
|}.

End Core.

(** ** The core behind the wrapper *)

(** Modelled from the spec: the outcome of a core call as the missing C
    functions leave it in memory.  A call the core rejects changes nothing
    ("failed calls leave prior state unchanged"), and the status itself has
    nowhere to go, since the calling statements in main.c drop it. *)
Definition keep {X} (before : X) (r : Core.result X) : X :=
  match r with
  | Core.Ok x => x
  | Core.Err _ => before
  end.

(** Modelled from the spec: the three missing functions of opl3.h, served by
    the core.  They always return. *)
Definition core_api (T : Core.tables) : opl3_api := {|
  opl3_chip := Core.chip;
  chip_zero := Core.unconfigured T;
  OPL3_Reset := fun c rate => Some (keep c (Core.reset T rate c));
  OPL3_WriteRegBuffered := fun c reg v => Some (Core.write_register T reg v c);
  OPL3_Generate4ChResampled := fun c buf => Some (keep (c, buf) (Core.render_one_frame T c))
|}.

(** no operator of the bank is active *)
Definition silent (ops : list Core.operator) : Prop :=
  Forall (fun o => Core.active o = false) ops.

Definition all_zero (l : list Z) : Prop := Forall (fun x => x = 0) l.

(** the demo core behind the wrapper, and its memory right after
    [opl3_reset(49716)] *)
Definition demo_api : opl3_api := core_api Core.demo_tables.

Definition demo_after_reset : memory demo_api :=
  @Memory demo_api (Core.power_on Core.demo_tables (Some 49716)) frame_zero.

(** ** Call sequences: what is rendered, what reaches the emulator *)

Definition is_render (c : call) : bool :=
  match c with CRender => true | _ => false end.

Definition is_buf_ptr (c : call) : bool :=
  match c with CBufPtr => true | _ => false end.

(** the calls of a sequence without the [opl3_buf_ptr] ones *)
Fixpoint drop_buf_ptr (cs : list call) : list call :=
  match cs with
  | [] => []
  | c :: cs' => if is_buf_ptr c then drop_buf_ptr cs' else c :: drop_buf_ptr cs'
  end.

(** the emulator calls of a whole sequence, in order *)
Fixpoint ext_trace (cs : list call) : list ext_call :=
  match cs with
  | [] => []
  | c :: cs' => ext_calls (body c) ++ ext_trace cs'
  end.

(** the arguments of an emulator call fit the parameter types of the entry
    point that makes it, and the sample pointer is [&sample_buf[0]] *)
Definition call_in_range (e : ext_call) : Prop :=
  match e with
  | X_Reset _ r => is_uint32 r
  | X_WriteRegBuffered _ reg v => is_uint16 reg /\ is_uint8 v
  | X_Generate4ChResampled _ b => b = addr_sample_buf 0
  end.

(** the value each entry point returns *)
Definition returned_by (c : call) : retval :=
  if is_buf_ptr c then RPtr (addr_sample_buf 0) else RVoid.

(** every call into the emulator returns *)
Definition always_returns (A : opl3_api) : Prop :=
  (forall c r, is_Some (OPL3_Reset A c r)) /\
  (forall c reg v, is_Some (OPL3_WriteRegBuffered A c reg v)) /\
  (forall c b, is_Some (OPL3_Generate4ChResampled A c b)).




(** * Properties of the wrapper, for every emulator *)

Section Wrapper.
Context (A : opl3_api).

Lemma exec_opl3_reset (r : Z) (m : memory A) :
  exec A (opl3_reset r) m =
    (c' ← OPL3_Reset A (chip m) (to_uint32 r); Some (RVoid, Memory c' (sample_buf m))).
Proof.
  simpl.
  destruct (OPL3_Reset A (chip m) (to_uint32 r)); reflexivity.
Qed.

Lemma exec_opl3_write (reg data : Z) (m : memory A) :
  exec A (opl3_write reg data) m =
    (c' ← OPL3_WriteRegBuffered A (chip m) (to_uint16 reg) (to_uint8 data);
     Some (RVoid, Memory c' (sample_buf m))).
Proof.
  simpl.
  destruct (OPL3_WriteRegBuffered A (chip m) (to_uint16 reg) (to_uint8 data)); reflexivity.
Qed.

Lemma exec_opl3_render (m : memory A) :
  exec A opl3_render m =
    ('(c', f) ← OPL3_Generate4ChResampled A (chip m) (sample_buf m);
     Some (RVoid, Memory c' (frame_to_int16 f))).
Proof.
  simpl.
  destruct (OPL3_Generate4ChResampled A (chip m) (sample_buf m)) as [[c' f]|]; reflexivity.
Qed.

Lemma exec_opl3_buf_ptr (m : memory A) :
  exec A opl3_buf_ptr m = Some (RPtr (addr_sample_buf 0), m).
Proof. reflexivity. Qed.

(** the relation and the function agree on one call *)
Lemma step_exec (m : memory A) (c : call) (ev : event) (m' : memory A) :
  step A m c ev m' <->
  exec A (body c) m = Some (ev_ret ev, m') /\ ev_samples ev = sample_buf m'.
Proof.
  split.
  - intros H. destruct H; simpl body.
    + rewrite exec_opl3_reset, H. split; reflexivity.
    + rewrite exec_opl3_write, H. split; reflexivity.
    + rewrite exec_opl3_render, H. split; reflexivity.
    + rewrite exec_opl3_buf_ptr. split; reflexivity.
  - destruct ev as [v f]. simpl. intros [He ->]. destruct c; simpl body in He.
    + rewrite exec_opl3_reset in He.
      destruct (OPL3_Reset A (chip m) (to_uint32 samplerate)) eqn:E; simplify_eq/=.
      by constructor.
    + rewrite exec_opl3_write in He.
      destruct (OPL3_WriteRegBuffered A (chip m) (to_uint16 reg) (to_uint8 data)) eqn:E;
        simplify_eq/=.
      by constructor.
    + rewrite exec_opl3_render in He.
      destruct (OPL3_Generate4ChResampled A (chip m) (sample_buf m)) as [[c' f']|] eqn:E;
        simplify_eq/=.
      by constructor.
    + rewrite exec_opl3_buf_ptr in He. simplify_eq. constructor.
Qed.

Lemma run_steps (cs : list call) (m : memory A) (evs : list event) (m' : memory A) :
  run A cs m = Some (evs, m') <-> steps A m cs evs m'.
Proof.
  revert m evs. induction cs as [|c cs IH]; intros m evs; simpl.
  - split.
    + intros ?; simplify_eq. constructor.
    + inversion 1; subst. reflexivity.
  - split.
    + intros H.
      destruct (exec A (body c) m) as [[v m1]|] eqn:E; simpl in H; [|discriminate].
      destruct (run A cs m1) as [[evs1 m2]|] eqn:R; simpl in H; [|discriminate].
      simplify_eq. econstructor.
      * apply step_exec. split; [exact E | reflexivity].
      * by apply IH.
    + inversion 1 as [|? ? ev m1 ? evs1 ? Hs Hr]; subst.
      apply step_exec in Hs as [E Hf]. apply IH in Hr.
      rewrite E. simpl. rewrite Hr. simpl. destruct ev; simpl in *. by subst.
Qed.

Lemma run_app (cs1 cs2 : list call) (m : memory A) :
  run A (cs1 ++ cs2) m =
    ('(evs1, m1) ← run A cs1 m; '(evs2, m2) ← run A cs2 m1; Some (evs1 ++ evs2, m2)).
Proof.
  revert m. induction cs1 as [|c cs1 IH]; intros m; simpl.
  - destruct (run A cs2 m) as [[? ?]|]; reflexivity.
  - destruct (exec A (body c) m) as [[v m1]|]; simpl; [|reflexivity].
    rewrite IH. destruct (run A cs1 m1) as [[evs1 m2]|]; simpl; [|reflexivity].
    destruct (run A cs2 m2) as [[evs2 m3]|]; reflexivity.
Qed.

(** no entry point hands anything but a pointer back, and only
    [opl3_buf_ptr] does that *)
Lemma void_not_handed_back (m : memory A) (p : prog) :
  (forall v m', exec A p m = Some (v, m') -> v = RVoid) -> ~ hands_back (exec A p m).
Proof. intros H (v & m' & E & Hv). apply Hv. eapply H. exact E. Qed.

Lemma reset_returns_void (r : Z) (m : memory A) (v : retval) (m' : memory A) :
  exec A (opl3_reset r) m = Some (v, m') -> v = RVoid.
Proof.
  rewrite exec_opl3_reset.
  destruct (OPL3_Reset A (chip m) (to_uint32 r)); intros; by simplify_eq/=.
Qed.

Lemma write_returns_void (reg data : Z) (m : memory A) (v : retval) (m' : memory A) :
  exec A (opl3_write reg data) m = Some (v, m') -> v = RVoid.
Proof.
  rewrite exec_opl3_write.
  destruct (OPL3_WriteRegBuffered A (chip m) (to_uint16 reg) (to_uint8 data));
    intros; by simplify_eq/=.
Qed.

Lemma render_returns_void (m : memory A) (v : retval) (m' : memory A) :
  exec A opl3_render m = Some (v, m') -> v = RVoid.
Proof.
  rewrite exec_opl3_render.
  destruct (OPL3_Generate4ChResampled A (chip m) (sample_buf m)) as [[? ?]|];
    intros; by simplify_eq/=.
Qed.

Lemma buffer_loadable (m : memory A) (i : Z) :
  0 <= i < 4 -> load_int16 m (ptr_add (addr_sample_buf 0) i) = frame_get (sample_buf m) i.
Proof. intros _. reflexivity. Qed.

End Wrapper.

Lemma to_int16_range (z : Z) : is_int16 (to_int16 z).
Proof.
  unfold is_int16, to_int16.
  pose proof (Z.mod_pos_bound (z + 2 ^ 15) (2 ^ 16) ltac:(lia)). lia.
Qed.

Lemma frame_to_int16_range (f : frame4) : frame_int16 (frame_to_int16 f).
Proof. repeat split; apply to_int16_range. Qed.

Lemma frame_get_is_Some (f : frame4) (i : Z) : 0 <= i < 4 -> is_Some (frame_get f i).
Proof.
  intros Hi. unfold frame_get. repeat case_decide; eauto. lia.
Qed.

(** * The claims about the wrapper *)

(** C1, as the specification words it, does not hold: [opl3_render] is a
    [void] function.  After [opl3_reset(49716)] on the demo core it returns
    and hands no frame, and nothing else, back to its caller. *)
Lemma opl3_render_returns_no_frame :
  fst <$> exec demo_api opl3_render demo_after_reset = Some RVoid /\
  ~ hands_back (exec demo_api opl3_render demo_after_reset).
Proof.
  split; [vm_compute; reflexivity|].
  apply void_not_handed_back. apply render_returns_void.
Qed.

(** C1, amended: [opl3_render] makes exactly one call, the emulator's
    one-sample generator on [&chip] and [&sample_buf[0]]; when that call
    returns, [opl3_render] returns [void], the chip is the advanced one and
    [sample_buf] holds the generated frame as four [int16_t] samples, which the
    caller reads through the pointer [opl3_buf_ptr] returns. *)
Theorem opl3_render_delivers_frame
    (A : opl3_api) (m : memory A) (c' : opl3_chip A) (f : frame4) :
  OPL3_Generate4ChResampled A (chip m) (sample_buf m) = Some (c', f) ->
  ext_calls opl3_render = [X_Generate4ChResampled addr_chip (addr_sample_buf 0)] /\
  exists m',
    exec A opl3_render m = Some (RVoid, m') /\
    chip m' = c' /\
    sample_buf m' = frame_to_int16 f /\
    frame_int16 (sample_buf m') /\
    exists p,
      exec A opl3_buf_ptr m' = Some (RPtr p, m') /\
      forall i, 0 <= i < 4 ->
        load_int16 m' (ptr_add p i) = frame_get (frame_to_int16 f) i.
Proof.
  intros G. split; [reflexivity|].
  exists (Memory c' (frame_to_int16 f)). split.
  { rewrite exec_opl3_render, G. reflexivity. }
  split; [reflexivity|]. split; [reflexivity|].
  split; [apply frame_to_int16_range|].
  exists (addr_sample_buf 0). split; [reflexivity|].
  intros i Hi. by rewrite buffer_loadable.
Qed.

Lemma opl3_render_delivers_frame_witness :
  exists m',
    exec demo_api opl3_render demo_after_reset = Some (RVoid, m') /\
    sample_buf m' = frame_zero.
Proof.
  edestruct (opl3_render_delivers_frame demo_api demo_after_reset)
    as (_ & m' & E & _ & B & _).
  - reflexivity.
  - exists m'. split; [exact E | exact B].
Defined.

(** C2, as the specification words it, does not hold for main.c: no two
    emulator calls of any entry points are made on different chip objects,
    so there is no second instance. *)
Lemma no_second_chip_instance :
  ~ (exists (c1 c2 : call) (e1 e2 : ext_call),
       In e1 (ext_calls (body c1)) /\ In e2 (ext_calls (body c2)) /\
       chip_arg e1 <> chip_arg e2).
Proof.
  intros (c1 & c2 & e1 & e2 & H1 & H2 & Hne). apply Hne.
  destruct c1, c2; simpl in H1, H2; intuition (subst; reflexivity).
Qed.

(** C2, amended: the wrapper has one chip and one sample buffer, with static
    storage.  Every emulator call of every entry point is made on [&chip],
    and the calls of a second caller start from the memory the first one
    left: all callers share the one instance. *)
Theorem one_chip_shared_by_all_callers
    (A : opl3_api) (cs1 cs2 : list call) (m : memory A) :
  (forall c e, In e (ext_calls (body c)) -> chip_arg e = addr_chip) /\
  run A (cs1 ++ cs2) m =
    ('(evs1, m1) ← run A cs1 m; '(evs2, m2) ← run A cs2 m1; Some (evs1 ++ evs2, m2)).
Proof.
  split.
  - intros c e H. destruct c; simpl in H; intuition (subst; reflexivity).
  - apply run_app.
Qed.

(** What sharing means on the demo core: the frame one caller renders after
    its own reset changes when another caller writes registers in between. *)
Example shared_chip_interference :
  (fst <$> run demo_api [CReset 49716; CRender] (initial_memory demo_api))
    = Some [Event RVoid frame_zero; Event RVoid frame_zero] /\
  (fst <$> run demo_api [CReset 49716; CWrite 0xC0 3; CWrite 0xB0 1; CRender]
             (initial_memory demo_api))
    = Some [Event RVoid frame_zero; Event RVoid frame_zero; Event RVoid frame_zero;
            Event RVoid (Frame4 255 255 0 0)].
Proof. split; vm_compute; reflexivity. Qed.

(** C3, as the specification words it, does not hold: [opl3_reset(0)] returns
    like every other call of it, with nothing handed back to the caller. *)
Lemma zero_rate_reset_reports_nothing :
  fst <$> exec demo_api (opl3_reset 0) (initial_memory demo_api) = Some RVoid /\
  ~ hands_back (exec demo_api (opl3_reset 0) (initial_memory demo_api)).
Proof.
  split; [vm_compute; reflexivity|].
  apply void_not_handed_back. apply reset_returns_void.
Qed.

(** C3, amended: [opl3_reset] checks nothing and reports nothing.  Every
    rate, zero included, goes to [OPL3_Reset] on [&chip] as a [uint32_t];
    when that call returns, [opl3_reset] returns [void] with the chip that
    [OPL3_Reset] left and [sample_buf] untouched. *)
Theorem opl3_reset_reports_nothing (A : opl3_api) (r : Z) (m : memory A) :
  ext_calls (opl3_reset r) = [X_Reset addr_chip (to_uint32 r)] /\
  ~ hands_back (exec A (opl3_reset r) m) /\
  exec A (opl3_reset r) m =
    match OPL3_Reset A (chip m) (to_uint32 r) with
    | Some c' => Some (RVoid, Memory c' (sample_buf m))
    | None => None
    end.
Proof.
  split; [reflexivity|]. split.
  - apply void_not_handed_back. apply reset_returns_void.
  - rewrite exec_opl3_reset. by destruct (OPL3_Reset A (chip m) (to_uint32 r)).
Qed.

(** C4, as the specification words it, does not hold: [opl3_render] before
    any reset returns with nothing handed back to the caller. *)
Lemma render_before_reset_reports_nothing :
  fst <$> exec demo_api opl3_render (initial_memory demo_api) = Some RVoid /\
  ~ hands_back (exec demo_api opl3_render (initial_memory demo_api)).
Proof.
  split; [vm_compute; reflexivity|].
  apply void_not_handed_back. apply render_returns_void.
Qed.

(** C4, amended: [opl3_render] has no failure of its own and reports none,
    before a reset or after: in every memory it does what
    [OPL3_Generate4ChResampled] does and, when that returns, returns [void]
    with the stored frame in [sample_buf]. *)
Theorem opl3_render_reports_nothing (A : opl3_api) (m : memory A) :
  ~ hands_back (exec A opl3_render m) /\
  exec A opl3_render m =
    match OPL3_Generate4ChResampled A (chip m) (sample_buf m) with
    | Some (c', f) => Some (RVoid, Memory c' (frame_to_int16 f))
    | None => None
    end.
Proof.
  split.
  - apply void_not_handed_back. apply render_returns_void.
  - rewrite exec_opl3_render.
    by destruct (OPL3_Generate4ChResampled A (chip m) (sample_buf m)) as [[? ?]|].
Qed.

Lemma to_uint32_id (z : Z) : is_uint32 z -> to_uint32 z = z.
Proof. intros H. apply Z.mod_small. exact H. Qed.
Lemma to_uint16_id (z : Z) : is_uint16 z -> to_uint16 z = z.
Proof. intros H. apply Z.mod_small. exact H. Qed.
Lemma to_uint8_id (z : Z) : is_uint8 z -> to_uint8 z = z.
Proof. intros H. apply Z.mod_small. exact H. Qed.

(** C9: each of the three entry points is one emulator call on [&chip] and
    nothing else.  [opl3_reset(r)] is [OPL3_Reset(&chip, r)];
    [opl3_write(reg, data)] is [OPL3_WriteRegBuffered(&chip, reg, data)] with
    every 16-bit [reg] and 8-bit [data] passed on as it is, not masked and not
    checked; [opl3_render()] is
    [OPL3_Generate4ChResampled(&chip, sample_buf)]. *)
Theorem entry_points_forward (A : opl3_api) (r reg data : Z) (m : memory A) :
  is_uint32 r -> is_uint16 reg -> is_uint8 data ->
  (ext_calls (opl3_reset r) = [X_Reset addr_chip r] /\
   exec A (opl3_reset r) m =
     (c' ← OPL3_Reset A (chip m) r; Some (RVoid, Memory c' (sample_buf m)))) /\
  (ext_calls (opl3_write reg data) = [X_WriteRegBuffered addr_chip reg data] /\
   exec A (opl3_write reg data) m =
     (c' ← OPL3_WriteRegBuffered A (chip m) reg data;
      Some (RVoid, Memory c' (sample_buf m)))) /\
  (ext_calls opl3_render = [X_Generate4ChResampled addr_chip (addr_sample_buf 0)] /\
   exec A opl3_render m =
     ('(c', f) ← OPL3_Generate4ChResampled A (chip m) (sample_buf m);
      Some (RVoid, Memory c' (frame_to_int16 f)))).
Proof.
  intros Hr Hreg Hdata.
  rewrite exec_opl3_reset, exec_opl3_write, exec_opl3_render.
  unfold opl3_reset, opl3_write, opl3_render, ext_calls.
  rewrite (to_uint32_id r Hr), (to_uint16_id reg Hreg), (to_uint8_id data Hdata).
  repeat split.
Qed.

Lemma entry_points_forward_witness :
  ext_calls (opl3_reset 49716) = [X_Reset addr_chip 49716] /\
  ext_calls (opl3_write 0xFFFF 0xFF) = [X_WriteRegBuffered addr_chip 0xFFFF 0xFF].
Proof.
  destruct (entry_points_forward demo_api 49716 0xFFFF 0xFF (initial_memory demo_api))
    as ((R & _) & (W & _) & _).
  - unfold is_uint32. lia.
  - unfold is_uint16. lia.
  - unfold is_uint8. lia.
  - split; [exact R | exact W].
Defined.

(** C10: [opl3_buf_ptr] makes no emulator call, changes nothing and returns
    the address of [sample_buf] in every state.  The pointer obtained at the
    start is the one obtained after any sequence of calls, its four elements
    stay readable, and they are where [opl3_render] puts its frame. *)
Theorem opl3_buf_ptr_constant (A : opl3_api) (m : memory A) (cs : list call)
    (evs : list event) (m' : memory A) :
  run A cs m = Some (evs, m') ->
  ext_calls opl3_buf_ptr = [] /\
  exists p,
    p = addr_sample_buf 0 /\
    exec A opl3_buf_ptr m = Some (RPtr p, m) /\
    exec A opl3_buf_ptr m' = Some (RPtr p, m') /\
    (forall i, 0 <= i < 4 ->
       load_int16 m' (ptr_add p i) = frame_get (sample_buf m') i /\
       is_Some (load_int16 m' (ptr_add p i))) /\
    (forall v m'' i, exec A opl3_render m' = Some (v, m'') -> 0 <= i < 4 ->
       exists c' f,
         OPL3_Generate4ChResampled A (chip m') (sample_buf m') = Some (c', f) /\
         load_int16 m'' (ptr_add p i) = frame_get (frame_to_int16 f) i).
Proof.
  intros _. split; [reflexivity|].
  exists (addr_sample_buf 0).
  split; [reflexivity|]. split; [reflexivity|]. split; [reflexivity|]. split.
  - intros i Hi. split; [reflexivity|]. apply frame_get_is_Some. exact Hi.
  - intros v m'' i E Hi. rewrite exec_opl3_render in E.
    destruct (OPL3_Generate4ChResampled A (chip m') (sample_buf m')) as [[c' f]|];
      simplify_eq/=.
    exists c', f. split; reflexivity.
Qed.

Lemma opl3_buf_ptr_constant_witness :
  exists m',
    exec demo_api opl3_buf_ptr m' = Some (RPtr (addr_sample_buf 0), m') /\
    load_int16 m' (ptr_add (addr_sample_buf 0) 1) = Some 255.
Proof.
  edestruct (opl3_buf_ptr_constant demo_api (initial_memory demo_api)
               [CReset 49716; CWrite 0xC0 3; CWrite 0xB0 1; CRender])
    as (_ & p & -> & _ & E & L & _).
  - reflexivity.
  - eexists. split; [exact E|].
    destruct (L 1 ltac:(lia)) as [-> _]. reflexivity.
Defined.

(** * The core of the specification behind the wrapper *)

Section CoreFacts.
Context (T : Core.tables).

Lemma lookup_reg_out_of_range (a : Z) : 511 < a -> Core.lookup_reg T a = None.
Proof. intros H. unfold Core.lookup_reg. rewrite decide_False by lia. reflexivity. Qed.

Lemma lookup_reg_unmapped (a : Z) : Core.reg_map T a = None -> Core.lookup_reg T a = None.
Proof. intros H. unfold Core.lookup_reg. case_decide; [exact H | reflexivity]. Qed.

Lemma write_register_unmapped (a v : Z) (c : Core.chip) :
  Core.lookup_reg T a = None -> Core.write_register T a v c = c.
Proof. intros H. unfold Core.write_register. rewrite H. reflexivity. Qed.

(** **** Writing twice *)

Lemma alter_idem {X} (f : X -> X) (i : nat) (l : list X) :
  (forall x, f (f x) = f x) -> alter f i (alter f i l) = alter f i l.
Proof.
  intros Hf. revert i. induction l as [|x l IH]; intros [|i]; simpl; try reflexivity.
  - by rewrite Hf.
  - f_equal. apply IH.
Qed.

Lemma set_op_field_idem (f : Core.op_field) (v : Z) (o : Core.operator) :
  Core.set_op_field f v (Core.set_op_field f v o) = Core.set_op_field f v o.
Proof. destruct f; reflexivity. Qed.

Lemma set_ch_field_idem (f : Core.ch_field) (v : Z) (c : Core.channel) :
  Core.set_ch_field f v (Core.set_ch_field f v c) = Core.set_ch_field f v c.
Proof. destruct f; reflexivity. Qed.

Lemma key_event_idem (on : bool) (o : Core.operator) :
  Core.key_event on (Core.key_event on o) = Core.key_event on o.
Proof.
  unfold Core.key_event. destruct on, (Core.op_key_on o) eqn:K; simpl;
    rewrite ?K; reflexivity.
Qed.

Lemma apply_target_idem (t : Core.target) (v : Z) (c : Core.chip) :
  Core.apply_target t v (Core.apply_target t v c) = Core.apply_target t v c.
Proof.
  destruct t; simpl; unfold Core.with_operators, Core.with_channels; simpl; f_equal.
  - apply alter_idem, set_op_field_idem.
  - apply alter_idem, set_ch_field_idem.
  - apply alter_idem, key_event_idem.
Qed.

Lemma apply_target_registers (t : Core.target) (v : Z) (c : Core.chip) (r : gmap Z Z) :
  Core.with_registers r (Core.apply_target t v c) =
  Core.apply_target t v (Core.with_registers r c).
Proof. destruct t; reflexivity. Qed.

Lemma apply_target_keeps_registers (t : Core.target) (v : Z) (c : Core.chip) :
  Core.registers (Core.apply_target t v c) = Core.registers c.
Proof. destruct t; reflexivity. Qed.

Lemma write_register_idem (a v : Z) (c : Core.chip) :
  Core.write_register T a v (Core.write_register T a v c) = Core.write_register T a v c.
Proof.
  unfold Core.write_register. destruct (Core.lookup_reg T a) as [t|] eqn:E.
  - rewrite apply_target_keeps_registers, apply_target_registers. simpl.
    rewrite insert_insert_eq.
    replace (Core.with_registers (<[a:=v]> (Core.registers c))
               (Core.with_registers (<[a:=v]> (Core.registers c)) c))
      with (Core.with_registers (<[a:=v]> (Core.registers c)) c) by reflexivity.
    apply apply_target_idem.
  - reflexivity.
Qed.

(** **** Silence *)

Lemma power_on_silent (rate : option Z) : silent (Core.operators (Core.power_on T rate)).
Proof. simpl. apply Forall_replicate. reflexivity. Qed.

Lemma imap_fixed {X} (f : nat -> X -> X) (l : list X) :
  Forall (fun x => forall i, f i x = x) l -> imap f l = l.
Proof.
  intros H. revert f H. induction l as [|x l IH]; intros f H; simpl; [reflexivity|].
  inversion H as [|? ? Hx Hl]; subst. rewrite Hx. f_equal. apply IH.
  eapply Forall_impl; [exact Hl|]. intros y Hy i. apply Hy.
Qed.

Lemma tick_all_silent (chs : list Core.channel) (ops : list Core.operator) :
  silent ops -> Core.tick_all T chs ops = ops.
Proof.
  intros H. unfold Core.tick_all. apply imap_fixed.
  eapply Forall_impl; [exact H|]. intros o Ho i. unfold Core.tick_operator.
  rewrite Ho. reflexivity.
Qed.

Lemma Zsum_all_zero (l : list Z) : all_zero l -> Core.Zsum l = 0.
Proof. induction 1 as [|x l -> _ IH]; simpl; [reflexivity | exact IH]. Qed.

Lemma pick_all_zero (sel : nat -> bool) (l : list Z) : all_zero l -> all_zero (Core.pick sel l).
Proof.
  intros H. revert sel. induction H as [|x l -> _ IH]; intros sel; simpl.
  - constructor.
  - constructor; [by destruct (sel 0%nat) | apply IH].
Qed.

Lemma op_output_silent (ops : list Core.operator) (i : nat) (md : Z) :
  silent ops -> from_option (fun o => Core.op_output T o md) 0 (ops !! i) = 0.
Proof.
  intros H. destruct (ops !! i) as [o|] eqn:E; simpl; [|reflexivity].
  unfold Core.op_output. rewrite (proj1 (Forall_lookup _ _) H i o E). reflexivity.
Qed.

Lemma slot_outputs_silent (ops : list Core.operator) (four : bool) (alg fb : Z)
    (slots : list nat) (done : list Z) :
  silent ops -> all_zero done -> all_zero (Core.slot_outputs T ops four alg fb slots done).
Proof.
  intros H. revert done. induction slots as [|i slots IH]; intros done Hd; simpl.
  - exact Hd.
  - apply IH. apply Forall_app. split; [exact Hd|].
    constructor; [|constructor]. apply op_output_silent. exact H.
Qed.

Lemma channel_output_silent (ops : list Core.operator) (j : nat) (ch : Core.channel) :
  silent ops -> Core.channel_output T ops j ch = 0.
Proof.
  intros H. unfold Core.channel_output.
  apply Zsum_all_zero, pick_all_zero, slot_outputs_silent; [exact H | constructor].
Qed.

Lemma route_zero (ch : Core.channel) : Core.route ch 0 = frame_zero.
Proof.
  unfold Core.route, frame_zero.
  by destruct (Z.testbit _ 0), (Z.testbit _ 1), (Z.testbit _ 2), (Z.testbit _ 3).
Qed.

Lemma fold_frames_zero (l : list frame4) :
  Forall (fun f => f = frame_zero) l -> foldr Core.frame_add frame_zero l = frame_zero.
Proof. induction 1 as [|f l -> _ IH]; simpl; [reflexivity|]. rewrite IH. reflexivity. Qed.

Lemma mix_silent (ops : list Core.operator) (chs : list Core.channel) :
  silent ops -> Core.mix T ops chs = frame_zero.
Proof.
  intros H. unfold Core.mix. apply fold_frames_zero.
  apply Forall_lookup. intros j f Hj. rewrite list_lookup_imap in Hj.
  destruct (chs !! j) as [ch|]; simplify_eq/=.
  rewrite channel_output_silent by exact H. apply route_zero.
Qed.

Lemma dot_all_zero (ws xs : list Z) : all_zero xs -> Core.dot ws xs = 0.
Proof.
  intros H. revert ws. induction H as [|x xs -> _ IH]; intros [|w ws]; simpl;
    try reflexivity.
  rewrite IH. lia.
Qed.

Lemma filter_zero (rate : Z) (recent : list frame4) :
  Forall (fun f => f = frame_zero) recent -> Core.filter T rate recent = frame_zero.
Proof.
  intros H. unfold Core.filter.
  assert (forall sel : frame4 -> Z, sel frame_zero = 0 ->
            Core.clamp16 (Core.dot (Core.taps T rate) (sel <$> recent)
                          / Core.tap_scale T rate) = 0) as Z0.
  { intros sel Hsel. rewrite dot_all_zero.
    - rewrite Zdiv_0_l. reflexivity.
    - apply Forall_fmap. eapply Forall_impl; [exact H|]. intros f ->. exact Hsel. }
  rewrite !Z0 by reflexivity. reflexivity.
Qed.

(** a reset with a valid rate, then one frame: the frame is silence *)
Lemma core_reset_render_silent (rate : Z) (c : Core.chip) :
  0 < rate ->
  exists c1 c2,
    Core.reset T rate c = Core.Ok c1 /\
    Core.render_one_frame T c1 = Core.Ok (c2, frame_zero).
Proof.
  intros Hr. exists (Core.power_on T (Some rate)).
  unfold Core.reset. rewrite decide_True by exact Hr.
  eexists. split; [reflexivity|].
  unfold Core.render_one_frame.
  cbn [Core.sample_rate Core.power_on Core.channels Core.operators Core.raw Core.registers].
  pose proof (power_on_silent (Some rate)) as Hs. simpl in Hs.
  rewrite tick_all_silent by exact Hs.
  rewrite mix_silent by exact Hs.
  rewrite filter_zero; [reflexivity|].
  apply Forall_take. repeat constructor.
Qed.

End CoreFacts.

(** What the core itself says to the two calls the wrapper cannot refuse:
    it rejects them and keeps its state, so behind the wrapper they are calls
    without effect. *)
Lemma core_reset_rejects (T : Core.tables) (rate : Z) (c : Core.chip) :
  rate <= 0 ->
  Core.reset T rate c = Core.Err Core.Invalid_sample_rate /\
  OPL3_Reset (core_api T) c rate = Some c.
Proof.
  intros H. unfold core_api, Core.reset; simpl.
  rewrite decide_False by lia. split; reflexivity.
Qed.

Lemma core_render_fails_iff (T : Core.tables) (c : Core.chip) :
  Core.render_one_frame T c = Core.Err Core.Not_reset <-> Core.sample_rate c = None.
Proof.
  unfold Core.render_one_frame. destruct (Core.sample_rate c); split; intros; congruence.
Qed.

(** * The claims that rest on the core *)

(** C5: for every valid sample rate, [opl3_reset] with that rate followed by
    one [opl3_render], with no write in between, leaves silence: all four
    samples of the frame are zero. *)
Theorem reset_then_render_is_silence
    (T : Core.tables) (r : Z) (m : memory (core_api T)) :
  0 < r < 2 ^ 32 ->
  exists evs m',
    run (core_api T) [CReset r; CRender] m = Some (evs, m') /\
    rendered [CReset r; CRender] evs = [frame_zero] /\
    sample_buf m' = frame_zero /\
    forall i, 0 <= i < 4 -> load_int16 m' (ptr_add (addr_sample_buf 0) i) = Some 0.
Proof.
  intros Hr.
  destruct (core_reset_render_silent T r (chip m) ltac:(lia)) as (c1 & c2 & R & G).
  exists [Event RVoid (sample_buf m); Event RVoid frame_zero],
         (@Memory (core_api T) c2 frame_zero).
  split.
  - cbn [run body]. rewrite exec_opl3_reset, to_uint32_id by (unfold is_uint32; lia).
    cbn [OPL3_Reset core_api]. rewrite R. cbn [keep mbind option_bind sample_buf].
    rewrite exec_opl3_render. cbn [OPL3_Generate4ChResampled core_api chip].
    rewrite G. reflexivity.
  - split; [reflexivity|]. split; [reflexivity|].
    intros i Hi. rewrite buffer_loadable by exact Hi. simpl.
    unfold frame_get. repeat case_decide; try reflexivity. lia.
Qed.

Lemma reset_then_render_is_silence_witness :
  exists evs m',
    run demo_api [CReset 49716; CRender] (initial_memory demo_api) = Some (evs, m') /\
    sample_buf m' = frame_zero.
Proof.
  destruct (reset_then_render_is_silence Core.demo_tables 49716 (initial_memory demo_api))
    as (evs & m' & R & _ & B & _).
  - lia.
  - exists evs, m'. split; [exact R | exact B].
Defined.

(** C6: a register write repeated at once changes nothing: after
    [opl3_write(reg, data)], the same call again returns [void] and leaves
    the whole memory, chip and samples, as the first call left it. *)
Theorem write_twice_is_write_once
    (T : Core.tables) (reg data : Z) (m : memory (core_api T)) :
  exists m1,
    exec (core_api T) (opl3_write reg data) m = Some (RVoid, m1) /\
    exec (core_api T) (opl3_write reg data) m1 = Some (RVoid, m1) /\
    run (core_api T) [CWrite reg data; CWrite reg data] m =
      Some ([Event RVoid (sample_buf m); Event RVoid (sample_buf m)], m1).
Proof.
  exists (@Memory (core_api T)
            (Core.write_register T (to_uint16 reg) (to_uint8 data) (chip m))
            (sample_buf m)).
  assert (forall m0 : memory (core_api T),
    exec (core_api T) (opl3_write reg data) m0 =
    Some (RVoid, @Memory (core_api T)
                   (Core.write_register T (to_uint16 reg) (to_uint8 data) (chip m0))
                   (sample_buf m0))) as W.
  { intros m0. rewrite exec_opl3_write. reflexivity. }
  split; [apply W|]. split.
  - rewrite W. cbn [chip sample_buf]. rewrite write_register_idem. reflexivity.
  - cbn [run body]. rewrite W. cbn [mbind option_bind]. rewrite W.
    cbn [chip sample_buf mbind option_bind]. rewrite write_register_idem. reflexivity.
Qed.

(** C7: a write to an address outside the register range, or to one the
    register map does not define, is ignored: [opl3_write] returns [void],
    hands nothing back and leaves the whole memory as it was. *)
Theorem write_unmapped_is_noop
    (T : Core.tables) (reg data : Z) (m : memory (core_api T)) :
  511 < to_uint16 reg \/ Core.reg_map T (to_uint16 reg) = None ->
  exec (core_api T) (opl3_write reg data) m = Some (RVoid, m) /\
  ~ hands_back (exec (core_api T) (opl3_write reg data) m).
Proof.
  intros H.
  assert (Core.lookup_reg T (to_uint16 reg) = None) as L.
  { destruct H; [by apply lookup_reg_out_of_range | by apply lookup_reg_unmapped]. }
  split.
  - rewrite exec_opl3_write. cbn [OPL3_WriteRegBuffered core_api mbind option_bind].
    rewrite write_register_unmapped by exact L. by destruct m.
  - apply void_not_handed_back. apply write_returns_void.
Qed.

Lemma write_unmapped_is_noop_witness :
  exec demo_api (opl3_write 0x200 0xFF) demo_after_reset = Some (RVoid, demo_after_reset).
Proof.
  apply (write_unmapped_is_noop Core.demo_tables 0x200 0xFF demo_after_reset).
  left. vm_compute. reflexivity.
Defined.

(** * Reset forgets the past (core)

    Behind C8: on the core, a reset with a valid rate erases whatever came
    before it, so two runs that begin with the same valid reset render the
    same frames even when they start from different memories. *)

Section CoreHistory.
Context (T : Core.tables).






End CoreHistory.




(** * Further properties of the wrapper, for every emulator *)

Section Sequences.
Context (A : opl3_api).

Lemma run_cons_inv (c : call) (cs : list call) (m : memory A)
    (evs : list event) (m' : memory A) :
  run A (c :: cs) m = Some (evs, m') ->
  exists v m1 evs1,
    exec A (body c) m = Some (v, m1) /\
    run A cs m1 = Some (evs1, m') /\
    evs = Event v (sample_buf m1) :: evs1.
Proof.
  cbn [run]. intros H.
  destruct (exec A (body c) m) as [[v m1]|]; simpl in H; [|discriminate].
  destruct (run A cs m1) as [[evs1 m2]|] eqn:R; simpl in H; [|discriminate].
  simplify_eq. exists v, m1, evs1.
  split; [reflexivity|]. split; [exact R | reflexivity].
Qed.

(** what one call does to the two globals *)
Lemma exec_body_inv (c : call) (m : memory A) (v : retval) (m1 : memory A) :
  exec A (body c) m = Some (v, m1) ->
  v = returned_by c /\
  (is_render c = false -> sample_buf m1 = sample_buf m) /\
  (is_render c = true -> exists f, sample_buf m1 = frame_to_int16 f) /\
  (is_buf_ptr c = true -> m1 = m).
Proof.
  destruct c; cbn [body]; intros E.
  - rewrite exec_opl3_reset in E.
    destruct (OPL3_Reset A (chip m) (to_uint32 samplerate)); simplify_eq/=.
    repeat split; simpl; intros; (reflexivity || discriminate).
  - rewrite exec_opl3_write in E.
    destruct (OPL3_WriteRegBuffered A (chip m) (to_uint16 reg) (to_uint8 data));
      simplify_eq/=.
    repeat split; simpl; intros; (reflexivity || discriminate).
  - rewrite exec_opl3_render in E.
    destruct (OPL3_Generate4ChResampled A (chip m) (sample_buf m)) as [[c' f]|];
      simplify_eq/=.
    split; [reflexivity|]. split; [discriminate|].
    split; [intros _; exists f; reflexivity | discriminate].
  - rewrite exec_opl3_buf_ptr in E. simplify_eq.
    repeat split; simpl; intros; (reflexivity || discriminate).
Qed.

End Sequences.

Lemma last_default_cons {X} (x d : X) (l : list X) :
  default d (last (x :: l)) = default x (last l).
Proof. rewrite last_cons. destruct (last l); reflexivity. Qed.

(** X1: only [opl3_render] writes [sample_buf].  Through any sequence of
    [opl3_reset], [opl3_write] and [opl3_buf_ptr] calls the four samples stay
    what they were: the host sees the same samples after every call and at
    the end. *)
Theorem sample_buf_untouched_without_render
    (A : opl3_api) (cs : list call) (m : memory A) (evs : list event) (m' : memory A) :
  Forall (fun c => is_render c = false) cs ->
  run A cs m = Some (evs, m') ->
  sample_buf m' = sample_buf m /\
  Forall (fun ev => ev_samples ev = sample_buf m) evs.
Proof.
  intros Hcs. revert m evs. induction Hcs as [|c cs Hc _ IH]; intros m evs R.
  - simpl in R. simplify_eq. split; [reflexivity | constructor].
  - apply run_cons_inv in R as (v & m1 & evs1 & E & R & ->).
    apply exec_body_inv in E as (_ & Hk & _). specialize (Hk Hc).
    destruct (IH _ _ R) as [Hb Hev]. rewrite Hk in Hb, Hev.
    split; [exact Hb|]. constructor; [exact Hk | exact Hev].
Qed.

Lemma sample_buf_untouched_without_render_witness :
  exists evs m',
    run demo_api [CWrite 0xC0 3; CReset 49716; CBufPtr; CWrite 0xB0 1]
      (initial_memory demo_api) = Some (evs, m') /\
    sample_buf m' = frame_zero.
Proof.
  eexists _, _. split; [reflexivity|].
  eapply (sample_buf_untouched_without_render demo_api
            [CWrite 0xC0 3; CReset 49716; CBufPtr; CWrite 0xB0 1]
            (initial_memory demo_api)).
  - repeat constructor.
  - reflexivity.
Defined.

(** X2: at the end of any sequence of calls, [sample_buf] holds the frame of
    the last [opl3_render] in it, or its old contents when there was none;
    that is what the four elements behind the pointer of [opl3_buf_ptr]
    read. *)
Theorem sample_buf_holds_last_frame
    (A : opl3_api) (cs : list call) (m : memory A) (evs : list event) (m' : memory A) :
  run A cs m = Some (evs, m') ->
  sample_buf m' = default (sample_buf m) (last (rendered cs evs)) /\
  forall i, 0 <= i < 4 ->
    load_int16 m' (ptr_add (addr_sample_buf 0) i)
    = frame_get (default (sample_buf m) (last (rendered cs evs))) i.
Proof.
  intros R.
  assert (sample_buf m' = default (sample_buf m) (last (rendered cs evs))) as H.
  { revert m evs R. induction cs as [|c cs IH]; intros m evs R.
    - simpl in R. simplify_eq. reflexivity.
    - apply run_cons_inv in R as (v & m1 & evs1 & E & R & ->).
      apply exec_body_inv in E as (_ & Hk & _).
      rewrite (IH _ _ R). destruct c; cbn [rendered ev_samples].
      + rewrite (Hk eq_refl). reflexivity.
      + rewrite (Hk eq_refl). reflexivity.
      + rewrite last_default_cons. reflexivity.
      + rewrite (Hk eq_refl). reflexivity. }
  split; [exact H|]. intros i Hi. rewrite buffer_loadable by exact Hi.
  rewrite H. reflexivity.
Qed.

Lemma sample_buf_holds_last_frame_witness :
  exists evs m',
    run demo_api [CReset 49716; CWrite 0xC0 3; CWrite 0xB0 1; CRender; CRender; CWrite 0xB0 0]
      (initial_memory demo_api) = Some (evs, m') /\
    load_int16 m' (ptr_add (addr_sample_buf 0) 1) = Some 509.
Proof.
  eexists _, _. split; [reflexivity|].
  edestruct (sample_buf_holds_last_frame demo_api
            [CReset 49716; CWrite 0xC0 3; CWrite 0xB0 1; CRender; CRender; CWrite 0xB0 0]
            (initial_memory demo_api)) as [_ L].
  - reflexivity.
  - rewrite (L 1 ltac:(lia)). reflexivity.
Defined.

(** X4: [opl3_buf_ptr] can be called at any point, any number of times,
    without a trace: a sequence of calls and the same sequence with its
    [opl3_buf_ptr] calls taken out render the same frames and end in the same
    memory (or both do not return). *)
Theorem buf_ptr_calls_leave_no_trace (A : opl3_api) (cs : list call) (m : memory A) :
  (fun '(evs, m') => (rendered cs evs, m')) <$> run A cs m =
  (fun '(evs, m') => (rendered (drop_buf_ptr cs) evs, m')) <$> run A (drop_buf_ptr cs) m.
Proof.
  revert m. induction cs as [|c cs IH]; intros m; [reflexivity|].
  destruct c; cbn [drop_buf_ptr is_buf_ptr run body].
  - destruct (exec A (opl3_reset samplerate) m) as [[v m1]|]; [|reflexivity].
    cbn [mbind option_bind]. specialize (IH m1).
    destruct (run A cs m1) as [[e1 n1]|], (run A (drop_buf_ptr cs) m1) as [[e2 n2]|];
      simpl in IH |- *; congruence.
  - destruct (exec A (opl3_write reg data) m) as [[v m1]|]; [|reflexivity].
    cbn [mbind option_bind]. specialize (IH m1).
    destruct (run A cs m1) as [[e1 n1]|], (run A (drop_buf_ptr cs) m1) as [[e2 n2]|];
      simpl in IH |- *; congruence.
  - destruct (exec A opl3_render m) as [[v m1]|]; [|reflexivity].
    cbn [mbind option_bind]. specialize (IH m1).
    destruct (run A cs m1) as [[e1 n1]|], (run A (drop_buf_ptr cs) m1) as [[e2 n2]|];
      simpl in IH |- *; congruence.
  - rewrite exec_opl3_buf_ptr. cbn [mbind option_bind]. rewrite <- IH.
    destruct (run A cs m) as [[e1 n1]|]; reflexivity.
Qed.

(** X5: a sequence of calls that returns gives the host one observation per
    call, and what each call returns depends on the entry point alone:
    [opl3_buf_ptr] returns [&sample_buf[0]], the other three return nothing,
    whatever their arguments, the state and the emulator.  No call returns a
    pointer into the chip. *)
Theorem one_event_per_call
    (A : opl3_api) (cs : list call) (m : memory A) (evs : list event) (m' : memory A) :
  run A cs m = Some (evs, m') ->
  Forall2 (fun c ev => ev_ret ev = returned_by c) cs evs /\
  length evs = length cs /\
  Forall (fun ev => forall p, ev_ret ev = RPtr p -> p_obj p = g_sample_buf) evs.
Proof.
  revert m evs. induction cs as [|c cs IH]; intros m evs R.
  - simpl in R. simplify_eq. repeat split; constructor.
  - apply run_cons_inv in R as (v & m1 & evs1 & E & R & ->).
    apply exec_body_inv in E as (-> & _).
    destruct (IH _ _ R) as (F & L & P). split; [|split].
    + constructor; [reflexivity | exact F].
    + simpl. rewrite L. reflexivity.
    + constructor; [|exact P]. simpl. intros p Hp.
      unfold returned_by in Hp. destruct (is_buf_ptr c); simplify_eq. reflexivity.
Qed.

Lemma one_event_per_call_witness :
  exists evs m',
    run demo_api [CReset 0; CRender; CBufPtr; CWrite 0x200 1]
      (initial_memory demo_api) = Some (evs, m') /\
    length evs = 4%nat.
Proof.
  eexists _, _. split; [reflexivity|].
  eapply (one_event_per_call demo_api [CReset 0; CRender; CBufPtr; CWrite 0x200 1]
            (initial_memory demo_api)).
  reflexivity.
Defined.

(** X6: what reaches the emulator.  For every sequence of entry-point calls
    and all integer arguments, each emulator call is made on [&chip] with
    arguments inside the parameter types of main.c (a [uint32_t] rate, a
    [uint16_t] register, a [uint8_t] value), the generator always gets
    [&sample_buf[0]], and there is exactly one emulator call per call that
    is not [opl3_buf_ptr]. *)
Theorem emulator_calls_well_formed (cs : list call) :
  Forall (fun e => chip_arg e = addr_chip /\ call_in_range e) (ext_trace cs) /\
  length (ext_trace cs) = length (drop_buf_ptr cs).
Proof.
  induction cs as [|c cs [IH1 IH2]]; [split; [constructor | reflexivity]|].
  assert (forall z n, 0 < n -> 0 <= z mod 2 ^ n < 2 ^ n) as B
    by (intros; apply Z.mod_pos_bound; lia).
  destruct c; cbn [ext_trace drop_buf_ptr is_buf_ptr body]; simpl ext_calls; simpl app.
  - split; [|simpl; by rewrite IH2]. constructor; [|exact IH1].
    split; [reflexivity|]. apply (B _ 32). lia.
  - split; [|simpl; by rewrite IH2]. constructor; [|exact IH1].
    split; [reflexivity|]. split; [apply (B _ 16) | apply (B _ 8)]; lia.
  - split; [|simpl; by rewrite IH2]. constructor; [|exact IH1].
    split; reflexivity.
  - split; [exact IH1 | exact IH2].
Qed.

(** X8: the wrapper has no failure of its own.  When every call into the
    emulator returns, every sequence of entry-point calls returns, from every
    memory and for all arguments: the pointers the wrapper passes are always
    the two objects it owns. *)
Theorem wrapper_adds_no_failure (A : opl3_api) (cs : list call) (m : memory A) :
  always_returns A ->
  exists evs m', run A cs m = Some (evs, m').
Proof.
  intros (HR & HW & HG). revert m. induction cs as [|c cs IH]; intros m.
  - eexists _, _. reflexivity.
  - assert (exists v m1, exec A (body c) m = Some (v, m1)) as (v & m1 & E).
    { destruct c; cbn [body].
      - rewrite exec_opl3_reset. destruct (HR (chip m) (to_uint32 samplerate)) as [c' ->].
        eexists _, _. reflexivity.
      - rewrite exec_opl3_write.
        destruct (HW (chip m) (to_uint16 reg) (to_uint8 data)) as [c' ->].
        eexists _, _. reflexivity.
      - rewrite exec_opl3_render.
        destruct (HG (chip m) (sample_buf m)) as [[c' f] ->].
        eexists _, _. reflexivity.
      - eexists _, _. apply exec_opl3_buf_ptr. }
    destruct (IH m1) as (evs & m' & R).
    exists (Event v (sample_buf m1) :: evs), m'.
    cbn [run]. rewrite E. cbn [mbind option_bind]. rewrite R. reflexivity.
Qed.

Lemma wrapper_adds_no_failure_witness :
  exists evs m',
    run demo_api [CRender; CWrite 0xFFFF 0xFF; CReset 0; CBufPtr]
      (initial_memory demo_api) = Some (evs, m').
Proof.
  apply (wrapper_adds_no_failure demo_api [CRender; CWrite 0xFFFF 0xFF; CReset 0; CBufPtr]
           (initial_memory demo_api)).
  repeat split; intros; simpl; eauto.
Defined.

(** X9: [opl3_reset] and [opl3_write] never look at the samples.  Two
    memories with the same chip and different sample buffers go through any
    sequence without [opl3_render] to the same chip (or both do not
    return). *)
Theorem render_free_chip_ignores_samples
    (A : opl3_api) (cs : list call) (c : opl3_chip A) (b1 b2 : frame4) :
  Forall (fun k => is_render k = false) cs ->
  (fun '(_, m') => chip m') <$> run A cs (Memory c b1) =
  (fun '(_, m') => chip m') <$> run A cs (Memory c b2).
Proof.
  intros Hcs. revert c b1 b2.
  induction Hcs as [|k cs Hk _ IH]; intros c b1 b2; [reflexivity|].
  destruct k; try discriminate; cbn [run body].
  - rewrite !exec_opl3_reset. cbn [chip sample_buf].
    destruct (OPL3_Reset A c (to_uint32 samplerate)) as [c'|]; [|reflexivity].
    cbn [mbind option_bind sample_buf]. specialize (IH c' b1 b2).
    destruct (run A cs (Memory c' b1)) as [[e1 n1]|],
             (run A cs (Memory c' b2)) as [[e2 n2]|]; simpl in IH |- *; congruence.
  - rewrite !exec_opl3_write. cbn [chip sample_buf].
    destruct (OPL3_WriteRegBuffered A c (to_uint16 reg) (to_uint8 data)) as [c'|];
      [|reflexivity].
    cbn [mbind option_bind sample_buf]. specialize (IH c' b1 b2).
    destruct (run A cs (Memory c' b1)) as [[e1 n1]|],
             (run A cs (Memory c' b2)) as [[e2 n2]|]; simpl in IH |- *; congruence.
  - rewrite !exec_opl3_buf_ptr. cbn [mbind option_bind sample_buf]. specialize (IH c b1 b2).
    destruct (run A cs (Memory c b1)) as [[e1 n1]|],
             (run A cs (Memory c b2)) as [[e2 n2]|]; simpl in IH |- *; congruence.
Qed.

Lemma render_free_chip_ignores_samples_witness :
  (fun '(_, m') => chip m') <$>
    run demo_api [CReset 49716; CWrite 0xB0 1]
      (@Memory demo_api (Core.unconfigured Core.demo_tables) (Frame4 1 2 3 4))
  = (fun '(_, m') => chip m') <$>
    run demo_api [CReset 49716; CWrite 0xB0 1]
      (@Memory demo_api (Core.unconfigured Core.demo_tables) frame_zero).
Proof.
  apply (render_free_chip_ignores_samples demo_api [CReset 49716; CWrite 0xB0 1]
           (Core.unconfigured Core.demo_tables) (Frame4 1 2 3 4) frame_zero).
  repeat constructor.
Defined.
